(** * Verlet ropes: a shallow embedding of [script.js]

    The program simulates hanging ropes: point masses ([Dot]) integrated by
    a Verlet step, joined by distance constraints ([Stick]) that are relaxed
    a fixed number of times per tick ([Rope.update]), and attracted to the
    pointer ([Mouse]).

    Every number of the program is a JavaScript [Number], that is an IEEE 754
    binary64 value.  The code is embedded once, over an interface [Num] of the
    arithmetic it uses, and read at two instances:

    - [float] (Rocq's primitive binary64 floats): the arithmetic the program
      runs on, with rounding, signed zeros, infinities and NaN;
    - [R]: the same code over exact real arithmetic, used only where a
      property is about the algorithm and fails to hold bit-for-bit.  The
      reals have neither [NaN] nor infinities, so what is proved over them
      is stated away from every division by zero.

    [Math.sqrt] is taken to be the correctly rounded square root, as the
    engines implement it.

    Drawing ([draw], [drawLight], the canvas and the animation frame loop) is
    not modelled; the fields that only drawing reads ([color], [lightImg],
    [lightWidth], [lightHeight]) are left out of the records, and so are the
    methods of [Vector] that the simulation never calls. *)

From Stdlib Require Import ZArith Lia Bool List Reals Lra Floats.
From stdpp Require Import base list.

Set Default Proof Using "Type".

(** ** Arithmetic of a JavaScript number *)

Class Num (F : Type) := {
  (** the decimal literal [m * 10^-k], for [0 <= m] *)
  dec : Z -> nat -> F;
  fneg : F -> F;
  fadd : F -> F -> F;
  fsub : F -> F -> F;
  fmul : F -> F -> F;
  fdiv : F -> F -> F;
  fsqrt : F -> F;
  (** [a < b]; false as soon as one side is NaN *)
  flt : F -> F -> bool;
  (** ToBoolean of a number: false exactly on [0], [-0] and [NaN] *)
  truthy : F -> bool
}.

Declare Scope num_scope.
Delimit Scope num_scope with num.
Infix "+" := fadd : num_scope.
Infix "-" := fsub : num_scope.
Infix "*" := fmul : num_scope.
Infix "/" := fdiv : num_scope.
Infix "<?" := flt : num_scope.
Notation "- x" := (fneg x) : num_scope.

(** [a > b] is [b < a], [x || d] on numbers keeps [x] unless it is falsy. *)
Definition fgt {F} `{Num F} (a b : F) : bool := flt b a.
Definition or_else {F} `{Num F} (x d : F) : F := if truthy x then x else d.

(** The counter of a [for (let i = 0; ...; i++)] loop as a number:
    [0] incremented [n] times. *)
Fixpoint counter {F} `{Num F} (n : nat) : F :=
  match n with
  | O => dec 0 0
  | S k => fadd (counter k) (dec 1 0)
  end.

(** *** The two instances *)

Definition float_of_Z (z : Z) : float := PrimFloat.of_uint63 (Uint63.of_Z z).

#[export] Instance Num_float : Num float := {
  dec m k := PrimFloat.div (float_of_Z m) (float_of_Z (10 ^ Z.of_nat k));
  fneg := PrimFloat.opp;
  fadd := PrimFloat.add;
  fsub := PrimFloat.sub;
  fmul := PrimFloat.mul;
  fdiv := PrimFloat.div;
  fsqrt := PrimFloat.sqrt;
  flt := PrimFloat.ltb;
  truthy x := negb (PrimFloat.eqb x PrimFloat.zero) && PrimFloat.eqb x x
}.

Definition Rltb (a b : R) : bool := if Rlt_dec a b then true else false.

#[export] Instance Num_R : Num R := {
  dec m k := (IZR m / 10 ^ k)%R;
  fneg := Ropp;
  fadd := Rplus;
  fsub := Rminus;
  fmul := Rmult;
  fdiv := Rdiv;
  fsqrt := R_sqrt.sqrt;
  flt := Rltb;
  truthy x := if Req_dec_T x 0%R then false else true
}.

(** ** [Math.random]

    The program draws random numbers for the rope origins and gaps and for
    the [id] of every dot.  The [k]-th value [Math.random] returns is
    [random k], and a computation that draws numbers threads the count of the
    draws made so far. *)

Definition Rand (A : Type) : Type := nat -> A * nat.

Definition ret {A} (a : A) : Rand A := fun k => (a, k).
Definition bind {A B} (c : Rand A) (f : A -> Rand B) : Rand B :=
  fun k => let (a, k') := c k in f a k'.

Definition Math_random {F} (random : nat -> F) : Rand F :=
  fun k => (random k, S k).

Notation "'let*' x ':=' c 'in' f" := (bind c (fun x => f))
  (at level 10, x name, c at level 100, f at level 200).

(** ** [Vector] *)

Module Vector.
Section Defs.
Context {F : Type} `{Num F}.
Local Open Scope num_scope.

Record t := V { x : F; y : F }.

(** [function Vector(x, y) { this.x = x || 0; this.y = y || 0; }] *)
Definition new (x0 y0 : F) : t := V (or_else x0 (dec 0 0)) (or_else y0 (dec 0 0)).

(** [Vector.sub = function (v1, v2)]: a fresh vector, through the constructor. *)
Definition static_sub (v1 v2 : t) : t := new (x v1 - x v2) (y v1 - y v2).

(** The methods below mutate [this]; they return its new value. *)

(** [add] called with one argument *)
Definition add (this v : t) : t := V (x this + x v) (y this + y v).
(** [sub] called with one argument *)
Definition sub (this v : t) : t := V (x this - x v) (y this - y v).
(** [mult] called with a number *)
Definition mult (this : t) (v : F) : t := V (x this * v) (y this * v).
Definition setXY (this : t) (x0 y0 : F) : t := V x0 y0.

Definition dist (this v : t) : F :=
  let dx := x this - x v in
  let dy := y this - y v in
  fsqrt (dx * dx + dy * dy).

(** The rest of the library, which the simulation does not call. *)

(** [Vector.add = function (v1, v2)] *)
Definition static_add (v1 v2 : t) : t := new (x v1 + x v2) (y v1 + y v2).

(** [add] and [sub] called with two numbers *)
Definition add_xy (this : t) (x0 y0 : F) : t := V (x this + x0) (y this + y0).
Definition sub_xy (this : t) (x0 y0 : F) : t := V (x this - x0) (y this - y0).

(** [mult] with a vector, [div] with a number and with a vector *)
Definition mult_v (this v : t) : t := V (x this * x v) (y this * y v).
Definition div (this : t) (v : F) : t := V (x this / v) (y this / v).
Definition div_v (this v : t) : t := V (x this / x v) (y this / y v).

Definition mag (this : t) : F := fsqrt (x this * x this + y this * y this).
Definition magSq (this : t) : F := x this * x this + y this * y this.

Definition distSq (this v : t) : F :=
  let dx := x this - x v in
  let dy := y this - y v in
  dx * dx + dy * dy.

(** [Vector.dist] and [Vector.distSq] *)
Definition static_dist (v1 v2 : t) : F := dist v1 v2.
Definition static_distSq (v1 v2 : t) : F := distSq v1 v2.

Definition normalize (this : t) : t :=
  let m := mag this in
  if fgt m (dec 0 0) then div this m else this.

Definition setMag (this : t) (value : F) : t := mult (normalize this) value.

Definition limit (this : t) (max : F) : t :=
  if fgt (mag this) max then mult (normalize this) max else this.

(** [copy] builds a new vector, through the constructor. *)
Definition copy (this : t) : t := new (x this) (y this).

Definition negative (this : t) : t := V (- x this) (- y this).

Definition project (this v : t) : t :=
  let coeff := (x this * x v + y this * y v) / (x v * x v + y v * y v) in
  V (coeff * x v) (coeff * y v).
End Defs.
Arguments t F : clear implicits.
End Vector.

(** ** [Mouse] *)

Module Mouse.
Section Defs.
Context {F : Type} `{Num F}.
Local Open Scope num_scope.

Record t := Make { pos : Vector.t F; radius : F }.

(** The constructor; the event handlers only ever call [pos.setXY]. *)
Definition new : t := Make (Vector.new (- dec 1000 0) (- dec 1000 0)) (dec 40 0).

(** [onmousemove] and [ontouchmove], with the coordinates of the event. *)
Definition move (m : t) (clientX clientY : F) : t :=
  Make (Vector.setXY (pos m) clientX clientY) (radius m).

(** [ontouchcancel] and [ontouchend]: the pointer goes back off screen. *)
Definition leave (m : t) : t :=
  Make (Vector.setXY (pos m) (- dec 1000 0) (- dec 1000 0)) (radius m).
End Defs.
Arguments t F : clear implicits.
End Mouse.

(** ** [Dot] *)

Module Dot.
Section Defs.
Context {F : Type} `{Num F}.
Local Open Scope num_scope.

Record t := Make {
  id : F;
  pos : Vector.t F;
  oldPos : Vector.t F;
  radius : F;
  friction : F;
  gravity : Vector.t F;
  mass : F;
  pinned : bool;
  distMouse : F
}.

Definition set_pos (d : t) (v : Vector.t F) : t :=
  Make (id d) v (oldPos d) (radius d) (friction d) (gravity d) (mass d)
       (pinned d) (distMouse d).
Definition set_oldPos (d : t) (v : Vector.t F) : t :=
  Make (id d) (pos d) v (radius d) (friction d) (gravity d) (mass d)
       (pinned d) (distMouse d).
Definition set_pinned (d : t) (b : bool) : t :=
  Make (id d) (pos d) (oldPos d) (radius d) (friction d) (gravity d) (mass d)
       b (distMouse d).
Definition set_distMouse (d : t) (v : F) : t :=
  Make (id d) (pos d) (oldPos d) (radius d) (friction d) (gravity d) (mass d)
       (pinned d) v.

(** [constructor(x, y)]; [id] is the next [Math.random()]. *)
Definition new (random : nat -> F) (x0 y0 : F) : Rand t :=
  let* id0 := Math_random random in
  ret (Make id0 (Vector.new x0 y0) (Vector.new x0 y0)
            (dec 1 0) (dec 97 2) (Vector.new (dec 0 0) (dec 6 1)) (dec 1 0)
            false (dec 1000 0)).

(** Lines 39 to 44 of [update]: the Verlet step. *)
Definition integrate (d : t) : t :=
  let vel := Vector.static_sub (pos d) (oldPos d) in
  let vel := Vector.mult vel (friction d) in
  let d := set_oldPos d
             (Vector.setXY (oldPos d) (Vector.x (pos d)) (Vector.y (pos d))) in
  let vel := Vector.add vel (gravity d) in
  set_pos d (Vector.add (pos d) vel).

(** Lines 46 to 60 of [update]: the pull of the pointer. *)
Definition interact (d : t) (mouse : Mouse.t F) : t :=
  let delta := Vector.static_sub (pos d) (Mouse.pos mouse) in
  let dx := Vector.x delta in
  let dy := Vector.y delta in
  let d := set_distMouse d (fsqrt (dx * dx + dy * dy)) in
  if fgt (distMouse d) (Mouse.radius mouse + radius d) then d
  else
    let direction := Vector.new (dx / distMouse d) (dy / distMouse d) in
    let force := (Mouse.radius mouse - distMouse d) / Mouse.radius mouse in
    let force := if force <? dec 0 0 then dec 0 0 else force in
    if force <? dec 6 1 then
      set_pos d
        (Vector.sub (pos d)
           (Vector.mult (Vector.mult direction force) (dec 1 4)))
    else
      set_pos d
        (Vector.setXY (pos d)
           (Vector.x (Mouse.pos mouse)) (Vector.y (Mouse.pos mouse))).

(** [update(mouse)] *)
Definition update (d : t) (mouse : Mouse.t F) : t :=
  if pinned d then d else interact (integrate d) mouse.
End Defs.
Arguments t F : clear implicits.
End Dot.

(** ** [Stick]

    A stick holds references to two dots that it shares with its rope and
    with the neighbouring sticks.  The dots live in a store (the rope's
    [dots] array) and a stick refers to them by position; [update] reads and
    writes the store, so that two sticks, or the two ends of one stick, that
    refer to the same dot see each other's writes. *)

Module Stick.
Section Defs.
Context {F : Type} `{Num F}.
Local Open Scope num_scope.

Record t := Make {
  startPoint : nat;
  endPoint : nat;
  tension : F;
  length : F
}.

(** [constructor(p1, p2)], for the dots [p1] and [p2] stored at [i] and [j]. *)
Definition new (i j : nat) (p1 p2 : Dot.t F) : t :=
  Make i j (dec 1 0) (Vector.dist (Dot.pos p1) (Dot.pos p2)).

(** [pos.x -= ox; pos.y -= oy] on a dot *)
Definition pull (ox oy : F) (p : Dot.t F) : Dot.t F :=
  Dot.set_pos p (Vector.V (Vector.x (Dot.pos p) - ox) (Vector.y (Dot.pos p) - oy)).
(** [pos.x += ox; pos.y += oy] on a dot *)
Definition push (ox oy : F) (p : Dot.t F) : Dot.t F :=
  Dot.set_pos p (Vector.V (Vector.x (Dot.pos p) + ox) (Vector.y (Dot.pos p) + oy)).

(** [update()].  A reference always leads to a dot, so the last case is
    never taken for a stick of a rope; the store is then left as it is. *)
Definition update (s : t) (h : list (Dot.t F)) : list (Dot.t F) :=
  match h !! startPoint s, h !! endPoint s with
  | Some p1, Some p2 =>
    let dx := Vector.x (Dot.pos p2) - Vector.x (Dot.pos p1) in
    let dy := Vector.y (Dot.pos p2) - Vector.y (Dot.pos p1) in
    let dist := fsqrt (dx * dx + dy * dy) in
    let diff := ((length s - dist) / dist) * tension s in
    let offsetX := dx * diff * dec 5 1 in
    let offsetY := dy * diff * dec 5 1 in
    let m := Dot.mass p2 + Dot.mass p1 in
    let m1 := Dot.mass p2 / m in
    let m2 := Dot.mass p1 / m in
    let h :=
      if Dot.pinned p1 then h
      else alter (pull (offsetX * m1) (offsetY * m1)) (startPoint s) h in
    let h :=
      if Dot.pinned p2 then h
      else alter (push (offsetX * m2) (offsetY * m2)) (endPoint s) h in
    h
  | _, _ => h
  end.

(** The distance between the two ends as [update] measures it
    (lines 95 to 97). *)
Definition stretch (s : t) (h : list (Dot.t F)) : option F :=
  match h !! startPoint s, h !! endPoint s with
  | Some p1, Some p2 => Some (Vector.dist (Dot.pos p2) (Dot.pos p1))
  | _, _ => None
  end.
End Defs.
Arguments t F : clear implicits.
End Stick.

(** ** [Rope] *)

Module Rope.
Section Defs.
Context {F : Type} `{Num F}.
Local Open Scope num_scope.

(** The argument of the constructor.  [segments] is a count. *)
Record config := Config {
  cfg_x : F;
  cfg_y : F;
  cfg_gap : F;
  cfg_segments : nat
}.

Record t := Make {
  x : F;
  y : F;
  segments : nat;
  gap : F;
  dots : list (Dot.t F);
  sticks : list (Stick.t F);
  iterations : nat
}.

Definition set_dots (r : t) (ds : list (Dot.t F)) : t :=
  Make (x r) (y r) (segments r) (gap r) ds (sticks r) (iterations r).

(** First loop of [create]: [n] more dots, the next one with index [i]. *)
Fixpoint create_dots (random : nat -> F) (x0 y0 gap0 : F) (i n : nat)
  : Rand (list (Dot.t F)) :=
  match n with
  | O => ret []
  | S n' =>
    let* d := Dot.new random x0 (y0 + counter i * gap0) in
    let* ds := create_dots random x0 y0 gap0 (S i) n' in
    ret (d :: ds)
  end.

(** Second loop of [create]: [n] more sticks, the next one from dot [i]. *)
Fixpoint create_sticks (ds : list (Dot.t F)) (i n : nat) : list (Stick.t F) :=
  match n with
  | O => []
  | S n' =>
    match ds !! i, ds !! S i with
    | Some p1, Some p2 => Stick.new i (S i) p1 p2 :: create_sticks ds (S i) n'
    | _, _ => []
    end
  end.

(** [constructor(config)], which ends in [create()].
    [config.segments || 10] and [config.gap || 15]. *)
Definition new (random : nat -> F) (c : config) : Rand t :=
  let segments0 := match cfg_segments c with O => 10%nat | n => n end in
  let gap0 := or_else (cfg_gap c) (dec 15 0) in
  let* ds := create_dots random (cfg_x c) (cfg_y c) gap0 0 segments0 in
  ret (Make (cfg_x c) (cfg_y c) segments0 gap0
            ds (create_sticks ds 0 (segments0 - 1)) 10).

(** [pin(index)]: [None] when [dots[index]] is undefined (a [TypeError]). *)
Definition pin (r : t) (index : nat) : option t :=
  match dots r !! index with
  | Some d => Some (set_dots r (<[index := Dot.set_pinned d true]> (dots r)))
  | None => None
  end.

(** One pass over the sticks, in order. *)
Definition relax (ss : list (Stick.t F)) (h : list (Dot.t F)) : list (Dot.t F) :=
  fold_left (fun h s => Stick.update s h) ss h.

(** [update(mouse)] *)
Definition update (r : t) (mouse : Mouse.t F) : t :=
  let ds := (fun d => Dot.update d mouse) <$> dots r in
  set_dots r (Nat.iter (iterations r) (relax (sticks r)) ds).
End Defs.
Arguments t F : clear implicits.
Arguments config F : clear implicits.
End Rope.

(** ** [App] *)

(** What a call that may throw or loop for ever comes to. *)
Inductive outcome (A : Type) : Type :=
| Done (a : A)
| TypeError
| OutOfFuel.
Arguments Done {A} a.
Arguments TypeError {A}.
Arguments OutOfFuel {A}.

Module App.
Section Defs.
Context {F : Type} `{Num F}.
Local Open Scope num_scope.

(** [randomNumBetween(min, max)] *)
Definition randomNumBetween (random : nat -> F) (min max : F) : Rand F :=
  let* r := Math_random random in
  ret (r * (max - min) + min).

(** The loop of [createRopes], entered with the counter at [i] and the
    ropes pushed so far; [fuel] bounds the number of tests of the guard. *)
Fixpoint createRopes_loop (random : nat -> F) (width height TOTAL : F)
    (fuel : nat) (i : F) (ropes : list (Rope.t F))
  : Rand (outcome (list (Rope.t F))) :=
  match fuel with
  | O => ret OutOfFuel
  | S fuel' =>
    if i <? TOTAL + dec 1 0 then
      let* x := randomNumBetween random (width * dec 3 1) (width * dec 7 1) in
      let y := dec 0 0 in
      let* gap := randomNumBetween random (height * dec 5 2) (height * dec 8 2) in
      let segments := 10%nat in
      let* rope := Rope.new random (Rope.Config x y gap segments) in
      match Rope.pin rope 0 with
      | Some rope =>
        createRopes_loop random width height TOTAL fuel'
          (i + dec 1 0) (ropes ++ [rope])
      | None => ret TypeError
      end
    else ret (Done ropes)
  end.

(** [createRopes()], with [App.width] and [App.height] as arguments. *)
Definition createRopes (random : nat -> F) (width height : F) (fuel : nat)
  : Rand (outcome (list (Rope.t F))) :=
  let TOTAL := width * dec 6 2 in
  createRopes_loop random width height TOTAL fuel (dec 0 0) [].
End Defs.
End App.

(** * The vocabulary of the properties *)

Section Vocabulary.
Context {F : Type} `{Num F}.
Local Open Scope num_scope.

(** [d'] is [d] but for its position. *)
Definition same_but_pos (d d' : Dot.t F) : Prop :=
  Dot.id d' = Dot.id d /\ Dot.oldPos d' = Dot.oldPos d /\
  Dot.radius d' = Dot.radius d /\ Dot.friction d' = Dot.friction d /\
  Dot.gravity d' = Dot.gravity d /\ Dot.mass d' = Dot.mass d /\
  Dot.pinned d' = Dot.pinned d /\ Dot.distMouse d' = Dot.distMouse d.

(** The distance to the pointer that [Dot.interact] computes and stores in
    [distMouse] (lines 46 and 48). *)
Definition mouse_distance (d : Dot.t F) (mouse : Mouse.t F) : F :=
  let delta := Vector.static_sub (Dot.pos d) (Mouse.pos mouse) in
  fsqrt (Vector.x delta * Vector.x delta + Vector.y delta * Vector.y delta).

(** The force of line 53, before it is clamped at [0]. *)
Definition mouse_force (d : Dot.t F) (mouse : Mouse.t F) : F :=
  (Mouse.radius mouse - mouse_distance d mouse) / Mouse.radius mouse.

(** The position the specification gives for the Verlet step, in its
    words: [position + (friction * (position - previousPosition) + gravity)]
    with the plain difference of the two positions, component by
    component. *)
Definition spec_position (d : Dot.t F) : Vector.t F :=
  let v := Vector.sub (Dot.pos d) (Dot.oldPos d) in
  Vector.add (Dot.pos d) (Vector.add (Vector.mult v (Dot.friction d)) (Dot.gravity d)).

(** The offsets of lines 100 and 101 of [Stick.update], scaled by the
    share [m] of one end. *)
Definition correction (s : Stick.t F) (p1 p2 : Dot.t F) (m : F) : F * F :=
  let dx := Vector.x (Dot.pos p2) - Vector.x (Dot.pos p1) in
  let dy := Vector.y (Dot.pos p2) - Vector.y (Dot.pos p1) in
  let dist := fsqrt (dx * dx + dy * dy) in
  let diff := ((Stick.length s - dist) / dist) * Stick.tension s in
  (dx * diff * dec 5 1 * m, dy * diff * dec 5 1 * m).

(** The dot at index [0] of the rope is there and pinned. *)
Definition anchored (r : Rope.t F) : bool :=
  match Rope.dots r !! 0%nat with
  | Some d => Dot.pinned d
  | None => false
  end.
End Vocabulary.

(** ** Over the reals *)

Section RealVocabulary.
Local Open Scope R_scope.

(** The share of the gap between distance and rest length that one call of
    [Stick.update] closes when one end is pinned: half the tension,
    weighted by the mass of the pinned end. *)
Definition relax_rate (s : Stick.t R) (p1 p2 : Dot.t R) : R :=
  Stick.tension s / 2 *
  ((if Dot.pinned p1 then Dot.mass p1 else Dot.mass p2)
   / (Dot.mass p2 + Dot.mass p1)).

(** How far the distance between the ends of a stick is from its rest
    length. *)
Definition real_error (s : Stick.t R) (h : list (Dot.t R)) : R :=
  match Stick.stretch s h with
  | Some d => Rabs (d - Stick.length s)
  | None => 0
  end.

(** A dot at rest at [(x, y)] with the constants of the constructor. *)
Definition real_dot (x y : R) (pinned : bool) : Dot.t R :=
  Dot.Make 0 (Vector.V x y) (Vector.V x y) 1 (dec 97 2)
           (Vector.V 0 (dec 6 1)) 1 pinned 1000.
End RealVocabulary.

(** ** Over binary64 numbers *)

Section FloatVocabulary.
Local Open Scope float_scope.

(** The error of a stick, as [real_error] but in the program's arithmetic. *)
Definition stick_error (s : Stick.t float) (h : list (Dot.t float)) : option float :=
  (fun d => abs (d - Stick.length s)) <$> Stick.stretch s h.

(** One call of [Stick.update] made the error strictly smaller. *)
Definition error_decreased (s : Stick.t float) (h : list (Dot.t float)) : bool :=
  match stick_error s (Stick.update s h), stick_error s h with
  | Some e', Some e => e' <? e
  | _, _ => false
  end.

(** The number of ropes the specification gives for a viewport width:
    [floor(width * 0.06) + 1], for a width in whole pixels. *)
Definition spec_rope_count (width : Z) : Z := (width * 6 / 100 + 1)%Z.

(** [Math.random] returning [0.5] at every call. *)
Definition half_random : nat -> float := fun _ => 0.5.

(** [new Dot(x, y)], and the same dot once pinned. *)
Definition dot_at (x y : float) : Dot.t float :=
  fst (Dot.new half_random x y 0%nat).
Definition pinned_at (x y : float) : Dot.t float :=
  Dot.set_pinned (dot_at x y) true.

(** A pointer at [(x, y)] with the radius the [Mouse] constructor sets. *)
Definition mouse_at (x y : float) : Mouse.t float :=
  Mouse.Make (Vector.V x y) (Mouse.radius Mouse.new).

(** A stick of rest length [len] between the dots stored at [0] and [1]. *)
Definition stick01 (len : float) : Stick.t float :=
  Stick.Make 0%nat 1%nat 1 len.

(** [new Rope({x: 0, y: 0, gap: 10, segments: 3})] followed by [pin(0)]. *)
Definition short_rope : option (Rope.t float) :=
  Rope.pin (fst (Rope.new half_random (Rope.Config 0 0 10 3%nat) 0%nat)) 0%nat.

(** The rope after a tick with the pointer on its anchor and a tick with
    the pointer at [(50, 50)]. *)
Definition shaken_rope : option (Rope.t float) :=
  (fun r => Rope.update (Rope.update r (mouse_at 0 0)) (mouse_at 50 50))
    <$> short_rope.

(** A dot on the move: it stands at [(3, 4)] and was at [(1, 1.5)] one
    tick before. *)
Definition moving_dot : Dot.t float :=
  Dot.set_oldPos (dot_at 3 4) (Vector.V 1 1.5).

(** A dot that stands at [(3, 4)] and whose old position is lost. *)
Definition lost_dot : Dot.t float :=
  Dot.set_oldPos (dot_at 3 4) (Vector.V nan nan).
End FloatVocabulary.

(** * Properties *)

(** ** What holds whatever the arithmetic *)

Section Generic.
Context {F : Type} `{Num F}.
Local Open Scope num_scope.

Implicit Types (d p : Dot.t F) (s : Stick.t F) (h : list (Dot.t F)).
Implicit Types (mouse : Mouse.t F) (r : Rope.t F).

Lemma same_but_pos_refl d : same_but_pos d d.
Proof. repeat split. Qed.

Lemma same_but_pos_trans d1 d2 d3 :
  same_but_pos d1 d2 -> same_but_pos d2 d3 -> same_but_pos d1 d3.
Proof.
  unfold same_but_pos. intros H12 H23.
  destruct H12 as (?&?&?&?&?&?&?&?), H23 as (?&?&?&?&?&?&?&?).
  repeat split; congruence.
Qed.

Lemma same_but_pos_set_pos d v : same_but_pos d (Dot.set_pos d v).
Proof. repeat split. Qed.

Lemma set_pos_eta d : Dot.set_pos d (Dot.pos d) = d.
Proof. by destruct d. Qed.

Lemma Vector_eta (v : Vector.t F) : Vector.V (Vector.x v) (Vector.y v) = v.
Proof. by destruct v. Qed.

Lemma interact_distMouse d mouse :
  Dot.distMouse (Dot.interact d mouse) = mouse_distance d mouse.
Proof.
  unfold Dot.interact, mouse_distance. cbn.
  repeat match goal with |- context [if ?b then _ else _] => destruct b end;
    reflexivity.
Qed.

Lemma interact_same_but_pos d mouse :
  same_but_pos (Dot.set_distMouse d (mouse_distance d mouse)) (Dot.interact d mouse).
Proof.
  unfold Dot.interact, mouse_distance. cbn.
  repeat match goal with |- context [if ?b then _ else _] => destruct b end;
    repeat split.
Qed.

Lemma interact_far d mouse :
  fgt (mouse_distance d mouse) (Mouse.radius mouse + Dot.radius d) = true ->
  Dot.interact d mouse = Dot.set_distMouse d (mouse_distance d mouse).
Proof.
  intros Hfar. unfold Dot.interact. cbn.
  change (fsqrt _) with (mouse_distance d mouse). by rewrite Hfar.
Qed.

(** *** The store under [Stick.update] *)

Lemma Stick_update_length s h : length (Stick.update s h) = length h.
Proof.
  unfold Stick.update.
  destruct (h !! Stick.startPoint s) as [p1|]; [|done].
  destruct (h !! Stick.endPoint s) as [p2|]; [|done].
  destruct (Dot.pinned p1), (Dot.pinned p2); by rewrite ?length_alter.
Qed.

(** Every dot of the store survives a call, with at most its position
    changed, and only if it is an end of the stick that is not pinned. *)
Lemma Stick_update_lookup s h i d :
  h !! i = Some d ->
  exists d', Stick.update s h !! i = Some d' /\ same_but_pos d d' /\
    ((i <> Stick.startPoint s /\ i <> Stick.endPoint s) \/ Dot.pinned d = true
     -> d' = d).
Proof.
  intros Hi. unfold Stick.update.
  destruct (h !! Stick.startPoint s) as [p1|] eqn:H1;
    [|exists d; auto using same_but_pos_refl].
  destruct (h !! Stick.endPoint s) as [p2|] eqn:H2;
    [|exists d; auto using same_but_pos_refl].
  cbn zeta.
  set (f1 := Stick.pull _ _). set (f2 := Stick.push _ _).
  destruct (Dot.pinned p1) eqn:P1, (Dot.pinned p2) eqn:P2.
  - exists d. auto using same_but_pos_refl.
  - destruct (decide (Stick.endPoint s = i)) as [<-|Hne].
    + rewrite list_lookup_alter_eq, Hi. cbn. eexists. split; [done|].
      split; [apply same_but_pos_set_pos|].
      intros [[_ ?]|Hp]; [done|]. congruence.
    + rewrite list_lookup_alter_ne by done.
      exists d. auto using same_but_pos_refl.
  - destruct (decide (Stick.startPoint s = i)) as [<-|Hne].
    + rewrite list_lookup_alter_eq, Hi. cbn. eexists. split; [done|].
      split; [apply same_but_pos_set_pos|].
      intros [[? _]|Hp]; [done|]. congruence.
    + rewrite list_lookup_alter_ne by done.
      exists d. auto using same_but_pos_refl.
  - destruct (decide (Stick.startPoint s = i)) as [Hs|Hne1];
    destruct (decide (Stick.endPoint s = i)) as [He|Hne2].
    + rewrite He, list_lookup_alter_eq, <- Hs, list_lookup_alter_eq, Hs, Hi. cbn.
      eexists. split; [done|]. split.
      * eapply same_but_pos_trans; apply same_but_pos_set_pos.
      * intros [[? _]|Hp]; [done|]. congruence.
    + rewrite list_lookup_alter_ne, Hs, list_lookup_alter_eq, Hi by done. cbn.
      eexists. split; [done|]. split; [apply same_but_pos_set_pos|].
      intros [[? _]|Hp]; [done|]. congruence.
    + rewrite He, list_lookup_alter_eq, list_lookup_alter_ne, Hi by done. cbn.
      eexists. split; [done|]. split; [apply same_but_pos_set_pos|].
      intros [[_ ?]|Hp]; [done|]. congruence.
    + rewrite !list_lookup_alter_ne by done.
      exists d. auto using same_but_pos_refl.
Qed.

Lemma Stick_update_pinned s h i d :
  h !! i = Some d -> Dot.pinned d = true -> Stick.update s h !! i = Some d.
Proof.
  intros Hi Hp. destruct (Stick_update_lookup s h i d Hi) as (d'&Hd'&_&Heq).
  rewrite Hd'. f_equal. auto.
Qed.

Lemma relax_pinned (ss : list (Stick.t F)) h i d :
  h !! i = Some d -> Dot.pinned d = true -> Rope.relax ss h !! i = Some d.
Proof.
  unfold Rope.relax. revert h.
  induction ss as [|s ss IH]; intros h Hi Hp; [done|].
  cbn. apply IH; [|done]. by apply Stick_update_pinned.
Qed.

Lemma relax_iter_pinned (ss : list (Stick.t F)) n h i d :
  h !! i = Some d -> Dot.pinned d = true ->
  Nat.iter n (Rope.relax ss) h !! i = Some d.
Proof.
  intros Hi Hp. induction n as [|n IH]; [done|].
  cbn. by apply relax_pinned.
Qed.

Lemma Stick_update_start_pinned s h p1 p2 :
  Stick.startPoint s <> Stick.endPoint s ->
  h !! Stick.startPoint s = Some p1 -> h !! Stick.endPoint s = Some p2 ->
  Dot.pinned p1 = true -> Dot.pinned p2 = false ->
  let o := correction s p1 p2 (Dot.mass p1 / (Dot.mass p2 + Dot.mass p1)) in
  Stick.update s h !! Stick.startPoint s = Some p1 /\
  Stick.update s h !! Stick.endPoint s = Some (Stick.push (fst o) (snd o) p2).
Proof.
  intros Hne H1 H2 P1 P2 o. unfold Stick.update. rewrite H1, H2, P1, P2. cbn zeta.
  split.
  - by rewrite list_lookup_alter_ne.
  - rewrite list_lookup_alter_eq, H2. reflexivity.
Qed.

Lemma Stick_update_end_pinned s h p1 p2 :
  Stick.startPoint s <> Stick.endPoint s ->
  h !! Stick.startPoint s = Some p1 -> h !! Stick.endPoint s = Some p2 ->
  Dot.pinned p1 = false -> Dot.pinned p2 = true ->
  let o := correction s p1 p2 (Dot.mass p2 / (Dot.mass p2 + Dot.mass p1)) in
  Stick.update s h !! Stick.startPoint s = Some (Stick.pull (fst o) (snd o) p1) /\
  Stick.update s h !! Stick.endPoint s = Some p2.
Proof.
  intros Hne H1 H2 P1 P2 o. unfold Stick.update. rewrite H1, H2, P1, P2. cbn zeta.
  split.
  - rewrite list_lookup_alter_eq, H1. reflexivity.
  - by rewrite list_lookup_alter_ne.
Qed.

(** [Vector.sub] is the plain difference when no component of it is
    falsy. *)
Lemma static_sub_plain (v1 v2 : Vector.t F) :
  truthy (Vector.x v1 - Vector.x v2) = true ->
  truthy (Vector.y v1 - Vector.y v2) = true ->
  Vector.static_sub v1 v2 = Vector.sub v1 v2.
Proof.
  intros Hx Hy. unfold Vector.static_sub, Vector.sub, Vector.new, or_else.
  by rewrite Hx, Hy.
Qed.

(** *** The Verlet step *)

(** C1, as the code has it.  On an unpinned dot [update] is the Verlet step
    followed by the pull of the pointer.  The step takes the velocity [v]
    that [Vector.sub(pos, oldPos)] builds, multiplies it by [friction],
    stores the current position in [oldPos], adds [gravity] to [v] and adds
    [v] to [pos], in this order.  [oldPos] ends as the old position whatever
    the pointer does, and the stepped position is the final one when the
    pointer is out of reach.  The stepped position is the one of the
    specification as long as [Vector.sub] returns the plain difference,
    which it does unless a component of the difference is [NaN] or a zero:
    the [Vector] constructor stores [0] for those. *)
Theorem Dot_update_verlet d mouse :
  Dot.pinned d = false ->
  let v := Vector.static_sub (Dot.pos d) (Dot.oldPos d) in
  let v := Vector.mult v (Dot.friction d) in
  let v := Vector.add v (Dot.gravity d) in
  let stepped := Dot.set_pos (Dot.set_oldPos d (Dot.pos d)) (Vector.add (Dot.pos d) v) in
  Dot.integrate d = stepped /\
  Dot.update d mouse = Dot.interact stepped mouse /\
  Dot.oldPos (Dot.update d mouse) = Dot.pos d /\
  (Vector.static_sub (Dot.pos d) (Dot.oldPos d) = Vector.sub (Dot.pos d) (Dot.oldPos d) ->
   Dot.pos stepped = spec_position d) /\
  (fgt (mouse_distance stepped mouse) (Mouse.radius mouse + Dot.radius d) = true ->
   Dot.pos (Dot.update d mouse) = Dot.pos stepped).
Proof.
  intros Hp v0 v1 v stepped.
  assert (Hint : Dot.integrate d = stepped).
  { unfold Dot.integrate, stepped, Vector.setXY. cbn.
    by rewrite Vector_eta. }
  assert (Hup : Dot.update d mouse = Dot.interact stepped mouse).
  { unfold Dot.update. by rewrite Hp, Hint. }
  split; [done|]. split; [done|]. split; [|split].
  - rewrite Hup.
    destruct (interact_same_but_pos stepped mouse) as (_&Hold&_).
    by rewrite Hold.
  - intros Hsub. unfold stepped, v, v1, v0, spec_position. cbn.
    by rewrite Hsub.
  - intros Hfar. rewrite Hup, interact_far by done. reflexivity.
Qed.

(** *** Pinned dots *)

(** C2.  A pinned dot is left as it is, position included, by its own
    [update] for every pointer, by the [update] of any stick on the store
    that holds it, and so by a whole [Rope.update]. *)
Theorem pinned_invariance d :
  Dot.pinned d = true ->
  (forall mouse, Dot.update d mouse = d) /\
  (forall s h i, h !! i = Some d -> Stick.update s h !! i = Some d) /\
  (forall r mouse i,
      Rope.dots r !! i = Some d ->
      Rope.dots (Rope.update r mouse) !! i = Some d).
Proof.
  intros Hp. split; [|split].
  - intros mouse. unfold Dot.update. by rewrite Hp.
  - intros s h i Hi. by apply Stick_update_pinned.
  - intros r mouse i Hi. unfold Rope.update. cbn.
    apply relax_iter_pinned; [|done].
    rewrite list_lookup_fmap, Hi. cbn. unfold Dot.update. by rewrite Hp.
Qed.

(** *** The frame of [Stick.update] *)

(** C10.  A call of [Stick.update] keeps the store's shape and, of every
    dot in it, everything but the position; a dot that is not an end of
    the stick keeps its position too.  The stick is only read: [update]
    takes it as an argument and gives back the store alone, and the sticks
    of a rope, [length] and [tension] included, are the same after all the
    calls of a [Rope.update]. *)
Theorem Stick_update_frame s h i d :
  h !! i = Some d ->
  length (Stick.update s h) = length h /\
  (exists d', Stick.update s h !! i = Some d' /\ same_but_pos d d' /\
     (i <> Stick.startPoint s -> i <> Stick.endPoint s -> d' = d)) /\
  (forall r mouse, Rope.sticks (Rope.update r mouse) = Rope.sticks r).
Proof.
  intros Hi. split; [apply Stick_update_length|]. split; [|done].
  destruct (Stick_update_lookup s h i d Hi) as (d'&Hd'&Hsame&Heq).
  exists d'. split; [done|]. split; [done|]. auto.
Qed.

(** *** Equal masses *)

(** C8.  On a stick that joins two distinct unpinned dots of equal mass,
    [update] subtracts from the position of the start point exactly the
    vector [o] that it adds to the position of the end point, and [o] is
    the vector from start to end, [delta], scaled by [diff], by [0.5] and
    by the mass share. *)
Theorem Stick_update_symmetric s h p1 p2 :
  Stick.startPoint s <> Stick.endPoint s ->
  h !! Stick.startPoint s = Some p1 ->
  h !! Stick.endPoint s = Some p2 ->
  Dot.pinned p1 = false -> Dot.pinned p2 = false ->
  Dot.mass p1 = Dot.mass p2 ->
  let delta := Vector.sub (Dot.pos p2) (Dot.pos p1) in
  let dist := Vector.dist (Dot.pos p2) (Dot.pos p1) in
  let diff := ((Stick.length s - dist) / dist) * Stick.tension s in
  let share := Dot.mass p1 / (Dot.mass p1 + Dot.mass p1) in
  let o := Vector.mult (Vector.mult (Vector.mult delta diff) (dec 5 1)) share in
  Stick.update s h !! Stick.startPoint s
    = Some (Dot.set_pos p1 (Vector.sub (Dot.pos p1) o)) /\
  Stick.update s h !! Stick.endPoint s
    = Some (Dot.set_pos p2 (Vector.add (Dot.pos p2) o)).
Proof.
  intros Hne H1 H2 P1 P2 Hm delta dist diff share o.
  unfold Stick.update. rewrite H1, H2, P1, P2. cbn zeta.
  rewrite <- Hm.
  split.
  - rewrite list_lookup_alter_ne, list_lookup_alter_eq, H1 by done. reflexivity.
  - rewrite list_lookup_alter_eq, list_lookup_alter_ne, H2 by done. reflexivity.
Qed.

(** *** Rope creation *)

Lemma Rope_new_pin (random : nat -> F) (c : Rope.config F) (k : nat) :
  Rope.cfg_segments c = 10%nat ->
  exists r r' k',
    Rope.new random c k = (r, k') /\ Rope.pin r 0 = Some r' /\
    anchored r' = true.
Proof.
  intros Hseg. unfold Rope.new. rewrite Hseg.
  do 3 eexists. split; [reflexivity|]. split; reflexivity.
Qed.

Lemma createRopes_loop_count (random : nat -> F) (width height TOTAL : F) n :
  forall fuel m (ropes : list (Rope.t F)) k,
    (forall j, (m <= j < m + n)%nat -> (counter j <? TOTAL + dec 1 0) = true) ->
    (counter (m + n)%nat <? TOTAL + dec 1 0) = false ->
    (n < fuel)%nat ->
    exists new k',
      App.createRopes_loop random width height TOTAL fuel (counter m) ropes k
        = (Done (ropes ++ new), k') /\
      length new = n /\ Forall (fun r => anchored r = true) new.
Proof.
  induction n as [|n IH]; intros fuel m ropes k Hin Hout Hfuel.
  - destruct fuel as [|fuel]; [lia|]. cbn.
    rewrite Nat.add_0_r in Hout. rewrite Hout.
    exists [], k. rewrite app_nil_r. by repeat split.
  - destruct fuel as [|fuel]; [lia|]. cbn [App.createRopes_loop].
    rewrite (Hin m) by lia.
    cbv [bind App.randomNumBetween Math_random ret].
    match goal with |- context [Rope.new random ?c ?k0] =>
      destruct (Rope_new_pin random c k0 eq_refl) as (r & r' & k1 & Hnew & Hpin & Hanch)
    end.
    rewrite Hnew, Hpin.
    destruct (IH fuel (S m) (ropes ++ [r']) k1) as (new & k' & Hloop & Hlen & Hall).
    + intros j Hj. apply Hin. lia.
    + by replace (S m + n)%nat with (m + S n)%nat by lia.
    + lia.
    + exists (r' :: new), k'. split; [|split].
      * change (counter m + dec 1 0) with (counter (S m)).
        rewrite Hloop. by rewrite <- app_assoc.
      * cbn. by rewrite Hlen.
      * by constructor.
Qed.

(** C9, as the code has it.  [createRopes] pushes one rope for each value
    [0, 1, 2, ...] of the loop counter that is below [width * 0.06 + 1]: if
    [n] is the first count for which the guard [i < TOTAL + 1] fails, the
    call returns (given fuel for the [n + 1] tests of the guard) with
    exactly [n] ropes, and every rope has its dot at index [0] pinned. *)
Theorem createRopes_count (random : nat -> F) (width height : F) n fuel k :
  (forall j, (j < n)%nat -> (counter j <? width * dec 6 2 + dec 1 0) = true) ->
  (counter n <? width * dec 6 2 + dec 1 0) = false ->
  (n < fuel)%nat ->
  exists ropes k',
    App.createRopes random width height fuel k = (Done ropes, k') /\
    length ropes = n /\ Forall (fun r => anchored r = true) ropes.
Proof.
  intros Hin Hout Hfuel. unfold App.createRopes.
  destruct (createRopes_loop_count random width height (width * dec 6 2)
              n fuel 0 [] k) as (new & k' & Hloop & Hlen & Hall).
  - intros j Hj. apply Hin. lia.
  - exact Hout.
  - exact Hfuel.
  - exists new, k'. split; [exact Hloop|]. by split.
Qed.
End Generic.

(** ** Binary64 arithmetic: the program as it runs *)

Section Float.
Local Open Scope num_scope.

(** *** Facts of IEEE 754 arithmetic, from the specification of the
    primitive operations *)

Lemma SFcompare_antisym a b :
  SFcompare b a
  = match SFcompare a b with Some c => Some (CompOpp c) | None => None end.
Proof.
  destruct a as [sa|sa| |sa ma ea], b as [sb|sb| |sb mb eb]; cbn;
    try (destruct sa); try (destruct sb); try reflexivity;
    rewrite (Z.compare_antisym ea eb); destruct (ea ?= eb)%Z; cbn;
    try reflexivity;
    rewrite !Pos.compare_cont_spec; cbn; rewrite (Pos.compare_antisym ma mb);
    destruct (ma ?= mb)%positive; reflexivity.
Qed.

(** [a <= b] excludes [b < a]. *)
Lemma leb_not_flt (a b : float) : PrimFloat.leb a b = true -> (b <? a) = false.
Proof.
  cbn [flt Num_float]. rewrite FloatAxioms.leb_spec, FloatAxioms.ltb_spec. unfold SFleb, SFltb.
  rewrite (SFcompare_antisym (Prim2SF a) (Prim2SF b)).
  destruct (SFcompare (Prim2SF a) (Prim2SF b)) as [[]|]; cbn; congruence.
Qed.

(** A number at or above [0.6] is not below [0]. *)
Lemma above_threshold_not_negative (f : float) :
  PrimFloat.leb (dec 6 1) f = true -> (f <? dec 0 0) = false.
Proof.
  cbn [flt Num_float]. rewrite FloatAxioms.leb_spec, FloatAxioms.ltb_spec.
  set (c := Prim2SF (dec 6 1)). vm_compute in c. subst c.
  set (z := Prim2SF (dec 0 0)). vm_compute in z. subst z.
  unfold SFleb, SFltb.
  destruct (Prim2SF f) as [[]|[]| |[] m e]; cbn; congruence.
Qed.

(** [x - x] is [0], or [NaN] when [x] is infinite or [NaN]. *)
Lemma sub_diag_cases (x : float) : (x - x = 0 \/ x - x = nan)%float.
Proof.
  assert (Hs : Prim2SF (x - x)%float = S754_zero false
               \/ Prim2SF (x - x)%float = S754_nan).
  { rewrite sub_spec. unfold SF64sub.
    destruct (Prim2SF x) as [[]|[]| |s m e]; cbn; auto.
    rewrite Z.sub_diag. cbn. auto. }
  destruct Hs as [Hs|Hs]; [left|right]; apply Prim2SF_inj; rewrite Hs;
    reflexivity.
Qed.

Lemma sub_zero_r (x : float) : (x - 0 = x)%float.
Proof.
  apply Prim2SF_inj. rewrite sub_spec. unfold SF64sub.
  change (Prim2SF 0%float) with (S754_zero false).
  destruct (Prim2SF x) as [[]|[]| |s m e]; reflexivity.
Qed.

(** [x / x] is [1], or [NaN] when [x] is zero, infinite or [NaN]. *)
Lemma div_diag_cases (x : float) : (x / x = 1 \/ x / x = nan)%float.
Proof.
  assert (Hs : Prim2SF (x / x)%float = Prim2SF 1%float
               \/ Prim2SF (x / x)%float = S754_nan).
  { rewrite div_spec. unfold SF64div.
    destruct (Prim2SF x) as [[]|[]| |s m e]; cbn [SFdiv]; auto.
    left. unfold SFdiv_core_binary.
    rewrite !Z.sub_diag.
    change (Z.min (fexp prec emax 0) 0) with (-53)%Z.
    change (0 - -53)%Z with 53%Z. cbv beta iota zeta.
    rewrite Z.shiftl_mul_pow2 by lia.
    destruct (Z.div_eucl (Z.pos m * 2 ^ 53) (Z.pos m)) as [q r] eqn:E.
    assert (Hq : q = (2 ^ 53)%Z).
    { change q with (fst (q, r)). rewrite <- E.
      change (fst (Z.div_eucl ?a ?b)) with (a / b)%Z.
      rewrite Z.mul_comm. apply Z.div_mul. lia. }
    assert (Hr : r = 0%Z).
    { change r with (snd (q, r)). rewrite <- E.
      change (snd (Z.div_eucl ?a ?b)) with (a mod b)%Z.
      rewrite Z.mul_comm. apply Z.mod_mul. lia. }
    subst q r.
    replace (new_location (Z.pos m) 0) with loc_Exact
      by (unfold new_location, new_location_even, new_location_odd;
          destruct (Z.even (Z.pos m)); reflexivity).
    rewrite xorb_nilpotent. reflexivity. }
  destruct Hs as [Hs|Hs]; [left|right]; apply Prim2SF_inj; rewrite Hs;
    reflexivity.
Qed.

(** The constructor turns the [NaN] of [x - x] into [0]. *)
Lemma or_else_sub_diag (x : float) : or_else (x - x) (dec 0 0) = 0%float.
Proof.
  unfold or_else. cbn.
  destruct (sub_diag_cases x) as [-> | ->]; reflexivity.
Qed.

Lemma static_sub_diag (v : Vector.t float) :
  Vector.static_sub v v = Vector.V 0%float 0%float.
Proof. unfold Vector.static_sub, Vector.new. by rewrite !or_else_sub_diag. Qed.

(** A falsy number is a zero or [NaN]. *)
Lemma falsy_cases (x : float) :
  truthy x = false -> x = 0%float \/ x = (-0)%float \/ x = nan.
Proof.
  cbn [truthy Num_float]. intros Hx. rewrite !FloatAxioms.eqb_spec in Hx.
  change (Prim2SF PrimFloat.zero) with (S754_zero false) in Hx.
  assert (Hs : Prim2SF x = S754_zero false \/ Prim2SF x = S754_zero true
               \/ Prim2SF x = S754_nan).
  { unfold SFeqb in Hx.
    destruct (Prim2SF x) as [[]|[]| |[] m e]; cbn in Hx; auto; try discriminate;
      rewrite Z.compare_refl, Pos.compare_cont_refl in Hx; discriminate. }
  destruct Hs as [Hs|[Hs|Hs]]; [left|right; left|right; right];
    apply Prim2SF_inj; rewrite Hs; reflexivity.
Qed.

Lemma add_nan_l (y : float) : (nan + y = nan)%float.
Proof. apply Prim2SF_inj. rewrite add_spec. reflexivity. Qed.

Lemma add_nan_r (y : float) : (y + nan = nan)%float.
Proof.
  apply Prim2SF_inj. rewrite add_spec.
  change (Prim2SF nan) with S754_nan.
  destruct (Prim2SF y) as [[]|[]| |[] m e]; reflexivity.
Qed.

Lemma ltb_nan_r (x : float) : (x <? nan)%float = false.
Proof.
  rewrite FloatAxioms.ltb_spec. change (Prim2SF nan) with S754_nan. unfold SFltb.
  destruct (Prim2SF x) as [[]|[]| |[] m e]; reflexivity.
Qed.

Lemma leb_nan_l (x : float) : (nan <=? x)%float = false.
Proof. rewrite FloatAxioms.leb_spec. reflexivity. Qed.

(** The square of a component of a difference is the same through the
    constructor or not, unless the component is [NaN]. *)
Lemma or_else_square (c : float) :
  or_else c (dec 0 0) * or_else c (dec 0 0) = c * c \/ c = nan.
Proof.
  unfold or_else. destruct (truthy c) eqn:Hc; [by left|].
  destruct (falsy_cases c Hc) as [-> | [-> | ->]]; [left|left|right]; reflexivity.
Qed.

(** The distance [update] computes (through [Vector.sub]) is the distance
    [Vector.dist] gives, unless that one is [NaN]. *)
Lemma mouse_distance_dist (d : Dot.t float) (mouse : Mouse.t float) :
  mouse_distance d mouse = Vector.dist (Dot.pos d) (Mouse.pos mouse)
  \/ Vector.dist (Dot.pos d) (Mouse.pos mouse) = nan.
Proof.
  unfold mouse_distance, Vector.dist, Vector.static_sub, Vector.new. cbn zeta.
  cbn [Vector.x Vector.y].
  destruct (or_else_square (Vector.x (Dot.pos d) - Vector.x (Mouse.pos mouse))%num)
    as [-> | ->];
  destruct (or_else_square (Vector.y (Dot.pos d) - Vector.y (Mouse.pos mouse))%num)
    as [-> | ->]; auto; right.
  - change (nan * nan) with nan. cbn [fadd fsqrt Num_float].
    by rewrite add_nan_r.
  - change (nan * nan) with nan. cbn [fadd fsqrt Num_float].
    by rewrite add_nan_l.
Qed.

(** *** The pointer *)

(** C7.  Let [D] be the distance of the dot to the pointer after the Verlet
    step, as [Vector.dist] gives it or as [update] computes it.  When [D] is
    above [mouse.radius + radius], the two distances are the same and
    [update] returns at line 50: the dot is as the Verlet step alone
    leaves it, position and old position included, with [D] recorded in
    [distMouse]. *)
Theorem Dot_update_pointer_far (d : Dot.t float) (mouse : Mouse.t float) (D : float) :
  Dot.pinned d = false ->
  D = Vector.dist (Dot.pos (Dot.integrate d)) (Mouse.pos mouse)
  \/ D = mouse_distance (Dot.integrate d) mouse ->
  fgt D (Mouse.radius mouse + Dot.radius d) = true ->
  Dot.update d mouse = Dot.set_distMouse (Dot.integrate d) D.
Proof.
  intros Hp HD Hfar.
  assert (Hd : D = mouse_distance (Dot.integrate d) mouse).
  { destruct HD as [HD|HD]; [|done].
    destruct (mouse_distance_dist (Dot.integrate d) mouse) as [|Hnan];
      [congruence|].
    rewrite HD, Hnan in Hfar. unfold fgt in Hfar. cbn [flt Num_float] in Hfar.
    by rewrite ltb_nan_r in Hfar. }
  subst D. unfold Dot.update. rewrite Hp. by apply interact_far.
Qed.

(** C5.  Let [D] be the distance of the dot to the pointer after the Verlet
    step, as [Vector.dist] gives it or as [update] computes it.  When [D] is
    at most [mouse.radius + radius] and the force
    [(mouse.radius - D) / mouse.radius] is at least [0.6], [update] leaves
    the dot exactly on the pointer (and otherwise as the Verlet step left
    it, with [D] recorded in [distMouse]). *)
Theorem Dot_update_snap (d : Dot.t float) (mouse : Mouse.t float) (D : float) :
  Dot.pinned d = false ->
  D = Vector.dist (Dot.pos (Dot.integrate d)) (Mouse.pos mouse)
  \/ D = mouse_distance (Dot.integrate d) mouse ->
  PrimFloat.leb D (Mouse.radius mouse + Dot.radius d)%num = true ->
  PrimFloat.leb (dec 6 1) ((Mouse.radius mouse - D) / Mouse.radius mouse)%num = true ->
  Dot.pos (Dot.update d mouse) = Mouse.pos mouse /\
  Dot.update d mouse
  = Dot.set_pos (Dot.set_distMouse (Dot.integrate d) D) (Mouse.pos mouse).
Proof.
  intros Hp HD Hnear Hforce.
  assert (Hd : D = mouse_distance (Dot.integrate d) mouse).
  { destruct HD as [HD|HD]; [|done].
    destruct (mouse_distance_dist (Dot.integrate d) mouse) as [|Hnan];
      [congruence|].
    rewrite HD, Hnan in Hnear. by rewrite leb_nan_l in Hnear. }
  subst D. clear HD. unfold Dot.update. rewrite Hp.
  assert (Hr : Dot.radius (Dot.integrate d) = Dot.radius d) by reflexivity.
  rewrite <- Hr in Hnear. clear Hr.
  generalize dependent (Dot.integrate d). clear d Hp. intros d Hforce Hnear.
  apply leb_not_flt in Hnear.
  pose proof (above_threshold_not_negative _ Hforce) as Hpos.
  apply leb_not_flt in Hforce.
  unfold Dot.interact. cbn zeta.
  change (fsqrt _) with (mouse_distance d mouse).
  unfold fgt. cbn [Dot.distMouse Dot.set_distMouse Dot.radius].
  rewrite Hnear, Hpos, Hforce. unfold Vector.setXY. cbn.
  rewrite Vector_eta. by split.
Qed.

(** C6.  When the Verlet step lands the dot exactly on the pointer,
    [update] ends with the dot as the step left it: same position, same
    old position, and [distMouse] recording the distance [0].  The code has
    no test for a zero distance; it gets there because the direction
    [0 / 0] it computes is not used, the force [radius / radius] is [1] or
    [NaN], neither of which is below [0.6], and the position it then stores
    is the pointer's, where the dot already is. *)
Theorem Dot_update_on_pointer (d : Dot.t float) (mouse : Mouse.t float) :
  Dot.pinned d = false ->
  Dot.pos (Dot.integrate d) = Mouse.pos mouse ->
  Dot.update d mouse = Dot.set_distMouse (Dot.integrate d) 0%float.
Proof.
  intros Hp Hpos. unfold Dot.update. rewrite Hp.
  generalize dependent (Dot.integrate d). clear d Hp. intros d Hpos.
  unfold Dot.interact. rewrite Hpos, static_sub_diag. cbn -[Vector.new].
  destruct (PrimFloat.ltb _ 0); [reflexivity|].
  rewrite sub_zero_r.
  assert (Hsnap :
    Dot.set_pos (Dot.set_distMouse d 0%float)
      (Vector.setXY (Mouse.pos mouse)
         (Vector.x (Mouse.pos mouse)) (Vector.y (Mouse.pos mouse)))
    = Dot.set_distMouse d 0%float).
  { unfold Vector.setXY. rewrite Vector_eta, <- Hpos. by destruct d. }
  destruct (div_diag_cases (Mouse.radius mouse)) as [-> | ->];
    cbn -[Vector.new]; exact Hsnap.
Qed.
End Float.

(** ** Exact arithmetic: the algorithm *)

Section Real.
Local Open Scope R_scope.
Implicit Types (d p : Dot.t R) (s : Stick.t R) (h : list (Dot.t R)).

(** Over the reals the [Vector] constructor stores what it is given. *)
Lemma static_sub_real (v1 v2 : Vector.t R) :
  Vector.static_sub v1 v2 = Vector.sub v1 v2.
Proof.
  unfold Vector.static_sub, Vector.sub, Vector.new, or_else. cbn.
  f_equal; match goal with |- context [Req_dec_T ?a ?b] =>
    destruct (Req_dec_T a b) as [->|_] end; lra.
Qed.

(** The loop counter is the count. *)
Lemma counter_real (n : nat) : counter n = INR n.
Proof.
  induction n as [|n IH]; [cbn; lra|].
  rewrite S_INR, <- IH. cbn. lra.
Qed.

(** In exact arithmetic the first count at which the guard of
    [createRopes] fails is the least whole number at or above
    [width * 0.06 + 1]: one more than [width * 0.06] when that is a whole
    number, two more than its floor otherwise. *)
Lemma createRopes_count_real (random : nat -> R) (width height : R) n fuel k :
  width * dec 6 2 + 1 <= INR n ->
  (n = 0%nat \/ INR n - 1 < width * dec 6 2 + 1) ->
  (n < fuel)%nat ->
  exists ropes k',
    App.createRopes random width height fuel k = (Done ropes, k') /\
    length ropes = n.
Proof.
  intros Hup Hlow Hfuel. unfold App.createRopes.
  destruct (createRopes_loop_count random width height (fmul width (dec 6 2))
              n fuel 0 [] k) as (new & k' & Hloop & Hlen & _).
  - intros j Hj. rewrite counter_real. cbn [flt fadd fmul Num_R]. unfold Rltb.
    destruct (Rlt_dec _ _) as [|Hn]; [done|]. exfalso. apply Hn.
    destruct Hlow as [->|Hlow]; [lia|].
    assert (INR j <= INR n - 1).
    { assert (Hle : INR (S j) <= INR n) by (apply le_INR; lia).
      rewrite S_INR in Hle. lra. }
    replace (dec 1 0 : R) with 1 by (cbn; lra). lra.
  - rewrite counter_real. cbn [flt fadd fmul Num_R]. unfold Rltb.
    destruct (Rlt_dec _ _) as [Hlt|]; [|done]. exfalso.
    replace (dec 1 0 : R) with 1 in Hlt by (cbn; lra).
    rewrite Nat.add_0_l in Hlt. lra.
  - exact Hfuel.
  - exists new, k'. by split.
Qed.

Lemma sqrt_scaled (c dx dy : R) :
  0 <= c ->
  R_sqrt.sqrt (c * dx * (c * dx) + c * dy * (c * dy)) = c * R_sqrt.sqrt (dx * dx + dy * dy).
Proof.
  intros Hc.
  replace (c * dx * (c * dx) + c * dy * (c * dy))
    with (c * c * (dx * dx + dy * dy)) by ring.
  rewrite sqrt_mult_alt by nra.
  by rewrite sqrt_square.
Qed.

Lemma relax_rate_bounds s p1 p2 :
  0 < Dot.mass p1 -> 0 < Dot.mass p2 -> 0 < Stick.tension s <= 1 ->
  0 < relax_rate s p1 p2 <= 1 / 2.
Proof.
  intros M1 M2 [T0 T1]. unfold relax_rate.
  set (m := if Dot.pinned p1 then Dot.mass p1 else Dot.mass p2).
  assert (Hm : 0 < m <= Dot.mass p2 + Dot.mass p1)
    by (unfold m; destruct (Dot.pinned p1); lra).
  assert (Hs : 0 < m / (Dot.mass p2 + Dot.mass p1) <= 1).
  { split.
    - apply Rdiv_lt_0_compat; lra.
    - apply (Rmult_le_reg_r (Dot.mass p2 + Dot.mass p1)); [lra|].
      unfold Rdiv. rewrite Rmult_assoc, Rinv_l by lra. lra. }
  nra.
Qed.
(** The distance after one correction scaled by the share [m]: the
    vector between the ends is scaled by a factor that is not negative. *)
Lemma corrected_distance (dx dy nx ny L t m : R) :
  let D := R_sqrt.sqrt (dx * dx + dy * dy) in
  let diff := (L - D) / D * t in
  0 < D -> 0 <= L -> 0 < t / 2 * m <= 1 / 2 ->
  nx = dx + dx * diff * / 2 * m ->
  ny = dy + dy * diff * / 2 * m ->
  R_sqrt.sqrt (nx * nx + ny * ny) = D + (L - D) * (t / 2 * m).
Proof.
  intros D diff HD HL Hk -> ->.
  set (c := 1 + diff * / 2 * m).
  assert (HcD : c * D = D + (L - D) * (t / 2 * m)).
  { unfold c, diff. field. lra. }
  assert (Hc : 0 <= c).
  { apply (Rmult_le_reg_r D); [lra|]. rewrite HcD. nra. }
  replace (dx + dx * diff * / 2 * m) with (c * dx) by (unfold c; ring).
  replace (dy + dy * diff * / 2 * m) with (c * dy) by (unfold c; ring).
  rewrite sqrt_scaled by done. exact HcD.
Qed.

(** One call on a stick with exactly one end pinned, at a distance that
    is not zero. *)
Lemma Stick_update_step s h p1 p2 :
  Stick.startPoint s <> Stick.endPoint s ->
  h !! Stick.startPoint s = Some p1 -> h !! Stick.endPoint s = Some p2 ->
  Dot.pinned p1 = negb (Dot.pinned p2) ->
  0 < Dot.mass p1 -> 0 < Dot.mass p2 ->
  0 < Stick.tension s <= 1 -> 0 <= Stick.length s ->
  0 < Vector.dist (Dot.pos p2) (Dot.pos p1) ->
  exists p1' p2',
    Stick.update s h !! Stick.startPoint s = Some p1' /\
    Stick.update s h !! Stick.endPoint s = Some p2' /\
    same_but_pos p1 p1' /\ same_but_pos p2 p2' /\
    Vector.dist (Dot.pos p2') (Dot.pos p1')
    = Vector.dist (Dot.pos p2) (Dot.pos p1)
      + (Stick.length s - Vector.dist (Dot.pos p2) (Dot.pos p1))
        * relax_rate s p1 p2.
Proof.
  intros Hne H1 H2 Hpin M1 M2 HT HL HD.
  pose proof (relax_rate_bounds s p1 p2 M1 M2 HT) as Hk.
  unfold relax_rate in *.
  destruct (Dot.pinned p2) eqn:P2; cbn in Hpin; rewrite Hpin in *.
  - destruct (Stick_update_end_pinned s h p1 p2 Hne H1 H2 Hpin P2) as [E1 E2].
    eexists _, p2. split; [exact E1|]. split; [exact E2|].
    split; [apply same_but_pos_set_pos|]. split; [apply same_but_pos_refl|].
    unfold Vector.dist in *. cbn in *.
    apply corrected_distance; try done; field; lra.
  - destruct (Stick_update_start_pinned s h p1 p2 Hne H1 H2 Hpin P2) as [E1 E2].
    eexists p1, _. split; [exact E1|]. split; [exact E2|].
    split; [apply same_but_pos_refl|]. split; [apply same_but_pos_set_pos|].
    unfold Vector.dist in *. cbn in *.
    apply corrected_distance; try done; field; lra.
Qed.
Lemma relax_rate_same s p1 p2 p1' p2' :
  same_but_pos p1 p1' -> same_but_pos p2 p2' ->
  relax_rate s p1' p2' = relax_rate s p1 p2.
Proof.
  intros (_&_&_&_&_&M1&P1&_) (_&_&_&_&_&M2&P2&_).
  unfold relax_rate. by rewrite M1, M2, P1.
Qed.

Lemma Stick_update_run s h p1 p2 :
  Stick.startPoint s <> Stick.endPoint s ->
  h !! Stick.startPoint s = Some p1 -> h !! Stick.endPoint s = Some p2 ->
  Dot.pinned p1 = negb (Dot.pinned p2) ->
  0 < Dot.mass p1 -> 0 < Dot.mass p2 ->
  0 < Stick.tension s <= 1 -> 0 <= Stick.length s ->
  0 < Vector.dist (Dot.pos p2) (Dot.pos p1) ->
  forall n, exists p1' p2',
    Nat.iter n (Stick.update s) h !! Stick.startPoint s = Some p1' /\
    Nat.iter n (Stick.update s) h !! Stick.endPoint s = Some p2' /\
    same_but_pos p1 p1' /\ same_but_pos p2 p2' /\
    0 < Vector.dist (Dot.pos p2') (Dot.pos p1') /\
    Vector.dist (Dot.pos p2') (Dot.pos p1') - Stick.length s
    = (1 - relax_rate s p1 p2) ^ n
      * (Vector.dist (Dot.pos p2) (Dot.pos p1) - Stick.length s).
Proof.
  intros Hne H1 H2 Hpin M1 M2 HT HL HD n.
  pose proof (relax_rate_bounds s p1 p2 M1 M2 HT) as Hk.
  induction n as [|n (q1 & q2 & E1 & E2 & S1 & S2 & HDn & Hn)].
  - exists p1, p2. cbn. repeat split; try done. lra.
  - pose proof S1 as (_&_&_&_&_&M1'&P1'&_).
    pose proof S2 as (_&_&_&_&_&M2'&P2'&_).
    destruct (Stick_update_step s _ q1 q2 Hne E1 E2) as
      (r1 & r2 & F1 & F2 & T1 & T2 & Hstep); try done; try congruence.
    rewrite (relax_rate_same s p1 p2 q1 q2 S1 S2) in Hstep.
    exists r1, r2. cbn [Nat.iter].
    split; [exact F1|]. split; [exact F2|].
    split; [by eapply same_but_pos_trans|].
    split; [by eapply same_but_pos_trans|].
    rewrite Hstep. split; [nra|].
    cbn [pow]. rewrite Rmult_assoc, <- Hn. ring.
Qed.
Lemma real_error_run s h p1 p2 :
  Stick.startPoint s <> Stick.endPoint s ->
  h !! Stick.startPoint s = Some p1 -> h !! Stick.endPoint s = Some p2 ->
  Dot.pinned p1 = negb (Dot.pinned p2) ->
  0 < Dot.mass p1 -> 0 < Dot.mass p2 ->
  0 < Stick.tension s <= 1 -> 0 <= Stick.length s ->
  0 < Vector.dist (Dot.pos p2) (Dot.pos p1) ->
  forall n,
    real_error s (Nat.iter n (Stick.update s) h)
    = (1 - relax_rate s p1 p2) ^ n
      * Rabs (Vector.dist (Dot.pos p2) (Dot.pos p1) - Stick.length s).
Proof.
  intros Hne H1 H2 Hpin M1 M2 HT HL HD n.
  pose proof (relax_rate_bounds s p1 p2 M1 M2 HT) as Hk.
  destruct (Stick_update_run s h p1 p2 Hne H1 H2 Hpin M1 M2 HT HL HD n)
    as (q1 & q2 & E1 & E2 & _ & _ & _ & Hn).
  unfold real_error, Stick.stretch. rewrite E1, E2, Hn, Rabs_mult.
  f_equal. apply Rabs_pos_eq. apply pow_le. lra.
Qed.

(** C4, as far as it holds.  In exact arithmetic, take a stick between two
    distinct dots of which exactly one is pinned, with positive masses, a
    tension in (0, 1], and a distance between the dots that is neither zero
    nor the rest length.  Each call of [update] multiplies the signed gap
    [distance - length] by the same factor [q = 1 - relax_rate], which lies
    in [1/2, 1): the gap keeps its sign (no overshoot), the error
    [|distance - length|] strictly decreases at every call, and it tends to
    zero. *)
Theorem Stick_update_converges s h p1 p2 :
  Stick.startPoint s <> Stick.endPoint s ->
  h !! Stick.startPoint s = Some p1 -> h !! Stick.endPoint s = Some p2 ->
  Dot.pinned p1 = negb (Dot.pinned p2) ->
  0 < Dot.mass p1 -> 0 < Dot.mass p2 ->
  0 < Stick.tension s <= 1 -> 0 <= Stick.length s ->
  0 < Vector.dist (Dot.pos p2) (Dot.pos p1) ->
  Vector.dist (Dot.pos p2) (Dot.pos p1) <> Stick.length s ->
  let run n := Nat.iter n (Stick.update s) h in
  let q := 1 - relax_rate s p1 p2 in
  1 / 2 <= q < 1 /\
  (forall n, exists dn,
      Stick.stretch s (run n) = Some dn /\
      dn - Stick.length s
      = q ^ n * (Vector.dist (Dot.pos p2) (Dot.pos p1) - Stick.length s)) /\
  (forall n, real_error s (run (S n)) < real_error s (run n)) /\
  (forall eps, 0 < eps -> exists N, forall n, (N <= n)%nat -> real_error s (run n) < eps).
Proof.
  intros Hne H1 H2 Hpin M1 M2 HT HL HD Hoff run q.
  pose proof (relax_rate_bounds s p1 p2 M1 M2 HT) as Hk.
  pose proof (real_error_run s h p1 p2 Hne H1 H2 Hpin M1 M2 HT HL HD) as Herr.
  fold q in Herr.
  assert (Hq : 1 / 2 <= q < 1) by (unfold q; lra).
  assert (He : 0 < Rabs (Vector.dist (Dot.pos p2) (Dot.pos p1) - Stick.length s))
    by (apply Rabs_pos_lt; lra).
  split; [exact Hq|]. split; [|split].
  - intros n.
    destruct (Stick_update_run s h p1 p2 Hne H1 H2 Hpin M1 M2 HT HL HD n)
      as (q1 & q2 & E1 & E2 & _ & _ & _ & Hn).
    eexists. split; [|exact Hn].
    unfold Stick.stretch, run. by rewrite E1, E2.
  - intros n. unfold run. rewrite !Herr. cbn [pow].
    assert (HP : 0 < q ^ n * Rabs (Vector.dist (Dot.pos p2) (Dot.pos p1) - Stick.length s))
      by (apply Rmult_lt_0_compat; [apply pow_lt; lra|done]).
    rewrite Rmult_assoc. nra.
  - intros eps Heps.
    destruct (pow_lt_1_zero q) with
      (y := eps / Rabs (Vector.dist (Dot.pos p2) (Dot.pos p1) - Stick.length s))
      as [N HN].
    + rewrite Rabs_pos_eq; lra.
    + by apply Rdiv_lt_0_compat.
    + exists N. intros n Hn. unfold run. rewrite Herr.
      specialize (HN n Hn). rewrite Rabs_pos_eq in HN by (apply pow_le; lra).
      apply (Rmult_lt_compat_r _ _ _ He) in HN.
      unfold Rdiv in HN. rewrite Rmult_assoc, Rinv_l, Rmult_1_r in HN by lra.
      exact HN.
Qed.

(** A stick of rest length [1], tension [1], from a pinned dot at [(0, 0)]
    to a dot at [(0, 2)]. *)
Lemma Stick_update_converges_witness :
  let s := Stick.Make 0 1 1 1 in
  let h := [real_dot 0 0 true; real_dot 0 2 false] in
  real_error s (Stick.update s h) < real_error s h.
Proof.
  intros s h.
  assert (Hd : Vector.dist (Vector.V 0 2) (Vector.V 0 0) = 2).
  { unfold Vector.dist. cbn.
    replace ((0 - 0) * (0 - 0) + (2 - 0) * (2 - 0)) with (2 * 2) by ring.
    apply sqrt_square. lra. }
  destruct (Stick_update_converges s h (real_dot 0 0 true) (real_dot 0 2 false))
    as (_ & _ & Hdec & _);
    try reflexivity; cbn [Stick.startPoint Stick.endPoint Stick.tension Stick.length
                           s real_dot Dot.mass Dot.pos];
    rewrite ?Hd; try lra; try lia.
  exact (Hdec 0%nat).
Defined.
End Real.

(** ** Runs of the program on binary64 numbers *)

Section Runs.
Local Open Scope float_scope.

(** The decimal literals of the program are the binary64 numbers
    JavaScript reads them as. *)
Example literals :
  (dec 5 1 : float) = 0x1p-1 /\ (dec 6 1 : float) = 0x1.3333333333333p-1 /\
  (dec 1 4 : float) = 0x1.a36e2eb1c432dp-14 /\
  (dec 97 2 : float) = 0x1.f0a3d70a3d70ap-1 /\
  (dec 6 2 : float) = 0x1.eb851eb851eb8p-5.
Proof. repeat split. Qed.

(** The Verlet step of a dot on the move, the pointer at its initial
    place: the velocity [(2, 2.5)] is damped by the friction, the position
    before the step becomes the old position, and the dot lands at
    [(3 + 2 * 0.97, 4 + (2.5 * 0.97 + 0.6))]. *)
Lemma Dot_update_verlet_witness :
  Dot.pinned moving_dot = false /\
  Dot.pos moving_dot = Vector.V 3 4 /\
  Dot.oldPos moving_dot = Vector.V 1 1.5 /\
  Dot.oldPos (Dot.update moving_dot Mouse.new) = Vector.V 3 4 /\
  Dot.pos (Dot.update moving_dot Mouse.new) = spec_position moving_dot /\
  Dot.pos (Dot.update moving_dot Mouse.new)
  = Vector.V (3 + ((3 - 1) * dec 97 2 + 0)) (4 + ((4 - 1.5) * dec 97 2 + dec 6 1)) /\
  Dot.update moving_dot Mouse.new
  = Dot.interact
      (Dot.set_pos (Dot.set_oldPos moving_dot (Vector.V 3 4))
         (Vector.V (3 + ((3 - 1) * dec 97 2 + 0))
                   (4 + ((4 - 1.5) * dec 97 2 + dec 6 1))))
      Mouse.new.
Proof.
  split; [reflexivity|]. split; [reflexivity|]. split; [reflexivity|].
  destruct (Dot_update_verlet moving_dot Mouse.new eq_refl)
    as (_ & Hup & Hold & Hspec & Hpos).
  split; [exact Hold|].
  split; [rewrite Hpos by reflexivity; apply Hspec; reflexivity|].
  split; [rewrite Hpos by reflexivity; reflexivity|exact Hup].
Defined.

(** [new Dot(3, 4)] with the pointer at its initial place: the pointer is
    out of reach. *)
Lemma Dot_update_pointer_far_witness :
  Dot.update (dot_at 3 4) Mouse.new
  = Dot.set_distMouse (Dot.integrate (dot_at 3 4))
      (Vector.dist (Vector.V 3 (4 + dec 6 1)) (Vector.V (-1000) (-1000))).
Proof.
  apply (Dot_update_pointer_far (dot_at 3 4) Mouse.new); [|left|]; reflexivity.
Defined.

(** A pinned [new Dot(0, 0)]. *)
Lemma pinned_invariance_witness :
  Dot.pinned (pinned_at 0 0) = true /\
  (forall mouse, Dot.update (pinned_at 0 0) mouse = pinned_at 0 0) /\
  (forall s h i, h !! i = Some (pinned_at 0 0) ->
                 Stick.update s h !! i = Some (pinned_at 0 0)) /\
  (forall r mouse i,
      Rope.dots r !! i = Some (pinned_at 0 0) ->
      Rope.dots (Rope.update r mouse) !! i = Some (pinned_at 0 0)).
Proof. split; [reflexivity|]. apply (pinned_invariance (pinned_at 0 0)). reflexivity. Defined.

(** A stick of rest length [10] between dots at [(0, 0)] and [(0, 20)]. *)
Lemma Stick_update_frame_witness :
  let h := [dot_at 0 0; dot_at 0 20] in
  h !! 0%nat = Some (dot_at 0 0) /\
  length (Stick.update (stick01 10) h) = length h /\
  (exists d', Stick.update (stick01 10) h !! 0%nat = Some d' /\
              same_but_pos (dot_at 0 0) d' /\
              (0%nat <> Stick.startPoint (stick01 10) ->
               0%nat <> Stick.endPoint (stick01 10) -> d' = dot_at 0 0)) /\
  (forall (r : Rope.t float) mouse,
      Rope.sticks (Rope.update r mouse) = Rope.sticks r).
Proof.
  intros h. split; [reflexivity|].
  apply (Stick_update_frame (stick01 10) h 0%nat (dot_at 0 0)). reflexivity.
Defined.

(** The same stick: each end moves by [2.5] towards the other. *)
Lemma Stick_update_symmetric_witness :
  let h := [dot_at 0 0; dot_at 0 20] in
  Stick.update (stick01 10) h !! 0%nat
    = Some (Dot.set_pos (dot_at 0 0) (Vector.sub (Vector.V 0 0) (Vector.V 0 (-2.5)))) /\
  Stick.update (stick01 10) h !! 1%nat
    = Some (Dot.set_pos (dot_at 0 20) (Vector.add (Vector.V 0 20) (Vector.V 0 (-2.5)))).
Proof.
  intros h.
  destruct (Stick_update_symmetric (stick01 10) h (dot_at 0 0) (dot_at 0 20))
    as [H0 H1]; try reflexivity; [cbn; lia|].
  split; [exact H0|exact H1].
Defined.

(** [new Dot(3, 4)] with the pointer at [(3, 5)]: distance [0.4] after the
    step, force [0.99]. *)
Lemma Dot_update_snap_witness :
  Dot.pos (Dot.update (dot_at 3 4) (mouse_at 3 5)) = Vector.V 3 5.
Proof.
  apply (Dot_update_snap (dot_at 3 4) (mouse_at 3 5)
           (Vector.dist (Vector.V 3 (4 + dec 6 1)) (Vector.V 3 5)));
    [|left| |]; reflexivity.
Defined.

(** The pointer exactly where the step takes [new Dot(3, 4)]. *)
Lemma Dot_update_on_pointer_witness :
  let mouse := Mouse.Make (Dot.pos (Dot.integrate (dot_at 3 4))) 40 in
  Dot.update (dot_at 3 4) mouse = Dot.set_distMouse (Dot.integrate (dot_at 3 4)) 0.
Proof.
  intros mouse. apply (Dot_update_on_pointer (dot_at 3 4) mouse); reflexivity.
Defined.

(** A viewport 100 pixels wide: [100 * 0.06 + 1] is [7], seven ropes. *)
Lemma createRopes_count_witness :
  exists ropes k',
    App.createRopes half_random 100 50 8%nat 0%nat = (Done ropes, k') /\
    length ropes = 7%nat /\ Forall (fun r => anchored r = true) ropes.
Proof.
  apply (createRopes_count half_random 100 50 7%nat 8%nat 0%nat).
  - intros j Hj. do 7 (destruct j as [|j]; [reflexivity|]). lia.
  - reflexivity.
  - lia.
Defined.

(** *** Where the code departs from the specification *)

(** C1 fails on a dot whose old position is [NaN].  The difference of the
    positions is then [NaN] and so is the position the specification gives;
    the code, whose [Vector] constructor stores [0] for a [NaN], lets the
    dot fall from where it stands. *)
Lemma Dot_update_verlet_lost_oldPos :
  Dot.pinned lost_dot = false /\
  Dot.pos lost_dot = Vector.V 3 4 /\
  Dot.pos (Dot.update lost_dot Mouse.new) = Vector.V 3 (4 + dec 6 1) /\
  Dot.pos (Dot.integrate lost_dot) = Vector.V 3 (4 + dec 6 1) /\
  spec_position lost_dot = Vector.V nan nan /\
  Dot.pos (Dot.update lost_dot Mouse.new) <> spec_position lost_dot.
Proof.
  repeat split. intros Heq.
  apply (f_equal (fun v => PrimFloat.is_nan (Vector.x v))) in Heq.
  vm_compute in Heq. discriminate.
Qed.

(** Such a dot is met in a run: after a tick with the pointer on the anchor
    of a rope (which wipes out the positions below it) and a tick with
    the pointer elsewhere
    (which snaps the dots to the pointer), the dots below the anchor have a
    position and no old position. *)
Example shaken_rope_oldPos :
  (fun r => Dot.oldPos <$> Rope.dots r) <$> shaken_rope
    = Some [Vector.V 0 0; Vector.V nan nan; Vector.V nan nan] /\
  (fun r => (fun d => PrimFloat.is_nan (Vector.x (Dot.pos d))
                      || PrimFloat.is_nan (Vector.y (Dot.pos d)))
            <$> Rope.dots r) <$> shaken_rope
    = Some [false; false; false].
Proof. split; reflexivity. Qed.

(** C3.  [Stick.update] has no test for a zero distance.  On a stick whose
    two unpinned ends are at the same place, [dist] is [0], [diff] is
    [10 / 0], the offsets are [0 * Infinity], and both positions become
    [NaN].  A rope gets there when the pointer sits on its anchor: the next
    dot is snapped onto the pinned one, and the relaxation that follows
    wipes out the position of every dot below the anchor. *)
Theorem Stick_update_zero_distance :
  Stick.stretch (stick01 10) [dot_at 5 5; dot_at 5 5] = Some 0 /\
  Dot.pos <$> Stick.update (stick01 10) [dot_at 5 5; dot_at 5 5]
    = [Vector.V nan nan; Vector.V nan nan] /\
  (fun r => Dot.pos <$> Rope.dots (Rope.update r (mouse_at 0 0))) <$> short_rope
    = Some [Vector.V 0 0; Vector.V nan nan; Vector.V nan nan].
Proof. repeat split. Qed.

(** C4 fails on binary64 numbers.  With the start pinned at [(0, 0)], the
    end one unit in the last place above [(0, 1)] and rest length [1], the
    correction is below half a unit in the last place: [update] leaves the
    store as it is, and the error is what it was.  With the end on the
    pinned start, the correction is [NaN] and so is the error. *)
Lemma Stick_update_error_not_decreased :
  let s := stick01 1 in
  let h := [pinned_at 0 0; dot_at 0 (next_up 1)] in
  let h0 := [pinned_at 0 0; dot_at 0 0] in
  (stick_error s h = Some 0x1p-52 /\
   Stick.update s h = h /\
   stick_error s (Stick.update s h) = Some 0x1p-52 /\
   error_decreased s h = false) /\
  (stick_error s h0 = Some 1 /\
   stick_error s (Stick.update s h0) = Some nan /\
   error_decreased s h0 = false).
Proof. repeat split. Qed.

(** C9 fails on the count.  For a viewport 1920 pixels wide,
    [width * 0.06 + 1] is [116.2]: the guard holds for [i = 0 .. 116], and
    [createRopes] makes 117 ropes where the formula gives 116. *)
Lemma createRopes_count_1920 :
  spec_rope_count 1920 = 116%Z /\
  exists ropes k',
    App.createRopes half_random 1920 1080 200%nat 0%nat = (Done ropes, k') /\
    length ropes = 117%nat /\
    Z.of_nat (length ropes) <> spec_rope_count 1920.
Proof.
  split; [reflexivity|].
  destruct (App.createRopes half_random 1920 1080 200%nat 0%nat) as [out k'] eqn:E.
  vm_compute in E.
  destruct out as [ropes| |]; try discriminate.
  exists ropes, k'. split; [reflexivity|].
  injection E as <- _. split; [reflexivity|]. vm_compute. discriminate.
Qed.
End Runs.
